(** * AI-skills, cmake-skill examples: the example library and its consumers

    A shallow embedding of

    - [examples/library/src/example_lib.cpp] (namespace [example]:
      [get_version], [add]),
    - [examples/consumer/main.cpp],
    - [examples/fetchcontent/main.cpp],

    together with the properties stated about them.

    C++ functions are embedded as computations over an explicit [world]
    (the text written so far to the standard streams).  A computation ends
    in one of three ways: it returns a value, it leaves by an exception, or
    its behaviour is undefined by the language (signed overflow). *)

From Stdlib Require Import ZArith String Ascii List Sorted Lia Bool.
From Stdlib Require Import DecimalString.
From Stdlib Require DecimalPos DecimalZ.
From Stdlib Require Import Floats.
Import ListNotations.

Local Open Scope string_scope.
Local Open Scope Z_scope.

(** ** The type [int]

    [int] is the 32-bit two's complement integer of the platforms the
    examples are built for.  A value of type [int] is a [Z] inside
    [[INT_MIN, INT_MAX]]. *)

Definition INT_BITS : Z := 32.
Definition INT_MAX : Z := 2 ^ (INT_BITS - 1) - 1.
Definition INT_MIN : Z := - 2 ^ (INT_BITS - 1).

Definition is_int (z : Z) : Prop := INT_MIN <= z <= INT_MAX.

Definition is_intb (z : Z) : bool := (INT_MIN <=? z) && (z <=? INT_MAX).

(** ** Worlds, outcomes and computations *)

(** What a run can change outside the values it computes: the text written
    to the standard output and to the standard error stream.  [std::cout]
    and C [stdout] are synchronised (the default), so one text stands for
    both. *)
Record world : Type := mkWorld {
  stdout : string;
  stderr : string
}.

Definition empty_world : world := mkWorld "" "".

Inductive outcome (A : Type) : Type :=
| Returns (a : A) (w : world)
| Throws (what : string) (w : world)
| Undefined.

Arguments Returns {A} a w.
Arguments Throws {A} what w.
Arguments Undefined {A}.

Definition cpp (A : Type) : Type := world -> outcome A.

Definition ret {A : Type} (a : A) : cpp A := fun w => Returns a w.

Definition bind {A B : Type} (c : cpp A) (k : A -> cpp B) : cpp B :=
  fun w =>
    match c w with
    | Returns a w' => k a w'
    | Throws e w' => Throws e w'
    | Undefined => Undefined
    end.

Definition throw {A : Type} (what : string) : cpp A := fun w => Throws what w.

Definition undefined {A : Type} : cpp A := fun _ => Undefined.

Declare Scope cpp_scope.
Delimit Scope cpp_scope with cpp.
Notation "x <- c ;; k" := (bind c (fun x => k))
  (at level 61, c at next level, right associativity) : cpp_scope.
Notation "c ;; k" := (bind c (fun _ => k))
  (at level 61, right associativity) : cpp_scope.
Local Open Scope cpp_scope.

(** The value a finished call hands back, if it returned. *)
Definition returned {A : Type} (o : outcome A) : option A :=
  match o with
  | Returns a _ => Some a
  | _ => None
  end.

(** The world a finished call leaves behind, if the language defines one. *)
Definition final {A : Type} (o : outcome A) : option world :=
  match o with
  | Returns _ w => Some w
  | Throws _ w => Some w
  | Undefined => None
  end.

(** ** Integer arithmetic

    [a + b] on two [int]s: the mathematical sum when [int] can hold it;
    otherwise the behaviour is undefined. *)
Definition int_add (a b : Z) : cpp Z :=
  if is_intb (a + b) then ret (a + b) else undefined.

(** ** Stream output *)

Definition nl : string := String "010"%char "".

(** Appending text to the standard output; nothing else moves. *)
Definition write_stdout (s : string) : cpp unit :=
  fun w => Returns tt (mkWorld (stdout w ++ s) (stderr w)).

(** [std::cout << s] for a string. *)
Definition cout_str (s : string) : cpp unit := write_stdout s.

(** Decimal text of an [int], as [std::cout << n] writes it with the
    default flags: a minus sign for negative numbers, no leading zeros. *)
Definition int_to_string (n : Z) : string :=
  NilZero.string_of_int (Z.to_int n).

(** [std::cout << n] for an [int]. *)
Definition cout_int (n : Z) : cpp unit := cout_str (int_to_string n).

(** [std::cout << std::endl]: a newline; the flush leaves the text as it is. *)
Definition endl : cpp unit := cout_str nl.

(** ** [namespace example] (example_lib.cpp) *)

Module example.

(** [std::string get_version() { return "1.0.0"; }] *)
Definition get_version : cpp string := ret "1.0.0".

(** [int add(int a, int b) { return a + b; }] *)
Definition add (a b : Z) : cpp Z := int_add a b.

End example.

(** ** consumer/main.cpp *)

Module consumer.

(** Operands of [<<] are evaluated left to right. *)
Definition main : cpp Z :=
  cout_str "ExampleLib version: " ;;
  v <- example.get_version ;;
  cout_str v ;;
  endl ;;
  result <- example.add 5 7 ;;
  cout_str "5 + 7 = " ;;
  cout_int result ;;
  endl ;;
  ret 0.

End consumer.

(** ** The fmt library: [fmt::print] with fixed-precision fields

    [double] is IEEE binary64, here the primitive [float].  A finite
    non-zero double is [m * 2^e] for the [m] and [e] that [Prim2SF] gives. *)

Module fmt.

(** [num / den] rounded to the nearest integer, ties to the even one
    ([0 <= num], [0 < den]). *)
Definition round_half_even (num den : Z) : Z :=
  let q := num / den in
  let r := num mod den in
  if den <? 2 * r then q + 1
  else if (2 * r =? den) && Z.odd q then q + 1
  else q.

Fixpoint zeros (n : nat) : string :=
  match n with
  | O => ""
  | S k => String "0"%char (zeros k)
  end.

Definition pad_zeros (width : nat) (s : string) : string :=
  zeros (width - String.length s) ++ s.

Definition nat_text (z : Z) : string :=
  NilZero.string_of_uint (N.to_uint (Z.to_N z)).

(** The digits of [scaled / 10^prec] with [prec] digits after the point;
    no point when [prec] is zero. *)
Definition fixed_digits (prec : nat) (scaled : Z) : string :=
  let p := 10 ^ Z.of_nat prec in
  match prec with
  | O => nat_text scaled
  | _ => nat_text (scaled / p) ++ "." ++
         pad_zeros prec (nat_text (scaled mod p))
  end.

Definition sign_text (s : bool) : string := if s then "-" else "".

(** [|x| * 10^prec], rounded to an integer from the exact binary value. *)
Definition scale (prec : nat) (m : positive) (e : Z) : Z :=
  let num := Z.pos m * 10 ^ Z.of_nat prec in
  if 0 <=? e then num * 2 ^ e else round_half_even num (2 ^ (- e)).

(** The presentation type [f] with precision [prec]. *)
Definition format_fixed (prec : nat) (x : float) : string :=
  match Prim2SF x with
  | S754_zero s => sign_text s ++ fixed_digits prec 0
  | S754_infinity s => sign_text s ++ "inf"
  | S754_nan => "nan"
  | S754_finite s m e => sign_text s ++ fixed_digits prec (scale prec m e)
  end.

(** Where the scanner of a format string stands. *)
Inductive fstate : Type :=
| InText                       (* outside a replacement field *)
| SeenOpen                     (* after an opening brace *)
| SeenClose                    (* after a closing brace in text *)
| SeenColon                    (* after the colon of a field *)
| InPrec (digits : option nat) (* after the dot, reading the precision *)
| SeenType (prec : nat).       (* after the type letter f *)

Definition digit_of (c : ascii) : option nat :=
  let n := nat_of_ascii c in
  if ((48 <=? n) && (n <=? 57))%nat then Some (n - 48)%nat else None.

Definition push (out : string) (c : ascii) : string := out ++ String c "".

(** The fragment of the format-string grammar the example uses: literal
    text, the escapes of the two braces, and fields [{:.Nf}] taking the
    next [double] argument.  [None] is [fmt::format_error]; a specification
    outside the fragment is reported as such too, which says nothing about
    what fmt does with it. *)
Fixpoint vformat_from (st : fstate) (f : string) (args : list float)
    (out : string) : option string :=
  match f with
  | EmptyString =>
      match st with
      | InText => Some out
      | _ => None
      end
  | String c rest =>
      match st with
      | InText =>
          if Ascii.eqb c "{" then vformat_from SeenOpen rest args out
          else if Ascii.eqb c "}" then vformat_from SeenClose rest args out
          else vformat_from InText rest args (push out c)
      | SeenOpen =>
          if Ascii.eqb c "{" then vformat_from InText rest args (push out c)
          else if Ascii.eqb c ":" then vformat_from SeenColon rest args out
          else None
      | SeenClose =>
          if Ascii.eqb c "}" then vformat_from InText rest args (push out c)
          else None
      | SeenColon =>
          if Ascii.eqb c "." then vformat_from (InPrec None) rest args out
          else None
      | InPrec digits =>
          match digit_of c, digits with
          | Some d, None => vformat_from (InPrec (Some d)) rest args out
          | Some d, Some n =>
              vformat_from (InPrec (Some (10 * n + d)%nat)) rest args out
          | None, Some n =>
              if Ascii.eqb c "f" then vformat_from (SeenType n) rest args out
              else None
          | None, None => None
          end
      | SeenType prec =>
          if Ascii.eqb c "}" then
            match args with
            | x :: args' =>
                vformat_from InText rest args' (out ++ format_fixed prec x)
            | [] => None
            end
          else None
      end
  end.

Definition vformat (f : string) (args : list float) : option string :=
  vformat_from InText f args "".

(** [fmt::print(f, args...)]: the formatted text goes to the standard
    output. *)
Definition print (f : string) (args : list float) : cpp unit :=
  match vformat f args with
  | Some text => write_stdout text
  | None => throw "format_error"
  end.

End fmt.


(** ** The JSON library: values, [operator[]], [dump] *)

Module json.

(** The kinds of value the example builds.  An object is a [std::map]:
    its members are kept in increasing order of their keys, one per key. *)
#[warnings="-register-all"]
Inductive value : Type :=
| Null
| Str (s : string)
| Array (items : list value)
| Object (members : list (string * value)).

(** [std::map::operator[]] followed by an assignment: the member is
    replaced when the key is there, and put at its place in the order
    when it is not. *)
Fixpoint object_set (key : string) (v : value)
    (members : list (string * value)) : list (string * value) :=
  match members with
  | [] => [(key, v)]
  | (k, x) :: rest =>
      match String.compare key k with
      | Lt => (key, v) :: members
      | Eq => (key, v) :: rest
      | Gt => (k, x) :: object_set key v rest
      end
  end.

Fixpoint object_get (key : string) (members : list (string * value))
    : option value :=
  match members with
  | [] => None
  | (k, x) :: rest => if String.eqb key k then Some x else object_get key rest
  end.

(** [std::map::emplace]: a key that is there keeps its value. *)
Definition object_emplace (key : string) (v : value)
    (members : list (string * value)) : list (string * value) :=
  match object_get key members with
  | Some _ => members
  | None => object_set key v members
  end.

Definition keys (members : list (string * value)) : list string :=
  map fst members.

Definition key_lt (p q : string * value) : Prop :=
  String.compare (fst p) (fst q) = Lt.

(** The members of a [std::map]: keys strictly increasing. *)
Definition ordered (members : list (string * value)) : Prop :=
  StronglySorted key_lt members.

(** [j[key] = v].  [operator[]] turns a null value into an empty object
    first, and refuses any value that is neither null nor an object. *)
Definition set (key : string) (v : value) (j : value) : cpp value :=
  match j with
  | Null => ret (Object (object_set key v []))
  | Object members => ret (Object (object_set key v members))
  | _ => throw "type_error.305"
  end.

(** An element of an initializer list that reads as a key with its value:
    an array of two values, the first a string. *)
Definition as_pair (j : value) : option (string * value) :=
  match j with
  | Array [Str k; v] => Some (k, v)
  | _ => None
  end.

Definition is_pair (j : value) : bool :=
  match as_pair j with
  | Some _ => true
  | None => false
  end.

(** The constructor from a braced list: an object when every element
    reads as a key with its value, an array of the elements otherwise. *)
Definition of_list (init : list value) : value :=
  if forallb is_pair init then
    Object (fold_left
              (fun members j =>
                 match as_pair j with
                 | Some (k, v) => object_emplace k v members
                 | None => members
                 end)
              init [])
  else Array init.

Definition quote : string := String "034"%char "".

Definition hex_digit (n : nat) : ascii :=
  if (n <? 10)%nat then ascii_of_nat (48 + n) else ascii_of_nat (87 + n).

(** One character of a string as [dump] writes it: the short escapes, a
    [u] escape for the other control characters, the character itself
    otherwise. *)
Definition escape_char (c : ascii) : string :=
  let n := nat_of_ascii c in
  let bs := String "092"%char in
  if (n =? 8)%nat then bs "b"
  else if (n =? 9)%nat then bs "t"
  else if (n =? 10)%nat then bs "n"
  else if (n =? 12)%nat then bs "f"
  else if (n =? 13)%nat then bs "r"
  else if (n =? 34)%nat then bs quote
  else if (n =? 92)%nat then bs (bs "")
  else if (n <? 32)%nat then
    bs (String "u" (String "0" (String "0"
      (String (hex_digit (n / 16)) (String (hex_digit (n mod 16)) "")))))
  else String c "".

Fixpoint escape (s : string) : string :=
  match s with
  | EmptyString => ""
  | String c rest => escape_char c ++ escape rest
  end.

Fixpoint spaces (n : nat) : string :=
  match n with
  | O => ""
  | S k => String " "%char (spaces k)
  end.

(** [dump] with a non-negative indent: every element and member on a line
    of its own, [step] more spaces per level; [cur] is the indentation of
    the enclosing line. *)
Fixpoint dump_pretty (step cur : nat) (j : value) : string :=
  match j with
  | Null => "null"
  | Str s => quote ++ escape s ++ quote
  | Array [] => "[]"
  | Array items =>
      "[" ++ nl ++
      (fix elements (l : list value) : string :=
         match l with
         | [] => ""
         | [x] => spaces (cur + step) ++ dump_pretty step (cur + step) x ++ nl
         | x :: rest =>
             spaces (cur + step) ++ dump_pretty step (cur + step) x ++
             "," ++ nl ++ elements rest
         end) items ++
      spaces cur ++ "]"
  | Object [] => "{}"
  | Object members =>
      "{" ++ nl ++
      (fix fields (l : list (string * value)) : string :=
         match l with
         | [] => ""
         | [(k, x)] =>
             spaces (cur + step) ++ quote ++ escape k ++ quote ++ ": " ++
             dump_pretty step (cur + step) x ++ nl
         | (k, x) :: rest =>
             spaces (cur + step) ++ quote ++ escape k ++ quote ++ ": " ++
             dump_pretty step (cur + step) x ++ "," ++ nl ++ fields rest
         end) members ++
      spaces cur ++ "}"
  end.

(** [dump] with a negative indent: the compact form. *)
Fixpoint dump_compact (j : value) : string :=
  match j with
  | Null => "null"
  | Str s => quote ++ escape s ++ quote
  | Array items =>
      "[" ++
      (fix elements (l : list value) : string :=
         match l with
         | [] => ""
         | [x] => dump_compact x
         | x :: rest => dump_compact x ++ "," ++ elements rest
         end) items ++
      "]"
  | Object members =>
      "{" ++
      (fix fields (l : list (string * value)) : string :=
         match l with
         | [] => ""
         | [(k, x)] => quote ++ escape k ++ quote ++ ":" ++ dump_compact x
         | (k, x) :: rest =>
             quote ++ escape k ++ quote ++ ":" ++ dump_compact x ++ "," ++
             fields rest
         end) members ++
      "}"
  end.

(** [j.dump(indent)]. *)
Definition dump (indent : Z) (j : value) : string :=
  if 0 <=? indent then dump_pretty (Z.to_nat indent) 0 j
  else dump_compact j.

End json.

(** ** fetchcontent/main.cpp *)

Module fetchcontent.

(** The literal [3.14159] of type [double]: the binary64 number nearest
    to 314159/100000. *)
Definition literal_3_14159 : float := 0x1.921f9f01b866ep+1%float.

Definition main : cpp Z :=
  fmt.print ("Hello from fmt library!" ++ nl) [] ;;
  fmt.print ("Formatted number: {:.2f}" ++ nl) [literal_3_14159] ;;
  let j := json.Null in
  j <- json.set "name" (json.Str "FetchContent Example") j ;;
  j <- json.set "version" (json.Str "1.0.0") j ;;
  j <- json.set "dependencies"
         (json.of_list [json.Str "fmt"; json.Str "nlohmann_json"]) j ;;
  cout_str (nl ++ "JSON output:" ++ nl) ;;
  cout_str (json.dump 2 j) ;;
  endl ;;
  ret 0.

End fetchcontent.

(** ** The texts and the structure the examples are expected to produce *)

(** What the consumer writes. *)
Definition consumer_text : string :=
  "ExampleLib version: 1.0.0" ++ nl ++ "5 + 7 = 12" ++ nl.

(** The members of the object the fetchcontent example serializes. *)
Definition fetchcontent_members : list (string * json.value) :=
  [("dependencies", json.Array [json.Str "fmt"; json.Str "nlohmann_json"]);
   ("name", json.Str "FetchContent Example");
   ("version", json.Str "1.0.0")].

Definition fetchcontent_json : json.value := json.Object fetchcontent_members.

(** What the fetchcontent example writes. *)
Definition fetchcontent_text : string :=
  "Hello from fmt library!" ++ nl ++
  "Formatted number: 3.14" ++ nl ++
  nl ++ "JSON output:" ++ nl ++
  json.dump 2 fetchcontent_json ++ nl.

(** ** Predicates on texts *)

(** A decimal digit. *)
Definition is_digit_char (c : ascii) : Prop := fmt.digit_of c <> None.

(** A text in which no brace occurs. *)
Fixpoint brace_free (s : string) : bool :=
  match s with
  | EmptyString => true
  | String c rest =>
      negb (Ascii.eqb c "{") && negb (Ascii.eqb c "}") && brace_free rest
  end.

(** ** The serialized text, written out *)

Definition double_quote : string := String "034"%char "".

Definition quoted (s : string) : string := double_quote ++ s ++ double_quote.

(** The eight lines the fetchcontent example prints for its object. *)
Definition fetchcontent_json_text : string :=
  "{" ++ nl ++
  "  " ++ quoted "dependencies" ++ ": [" ++ nl ++
  "    " ++ quoted "fmt" ++ "," ++ nl ++
  "    " ++ quoted "nlohmann_json" ++ nl ++
  "  ]," ++ nl ++
  "  " ++ quoted "name" ++ ": " ++ quoted "FetchContent Example" ++ "," ++ nl ++
  "  " ++ quoted "version" ++ ": " ++ quoted "1.0.0" ++ nl ++
  "}".

(** The value that the first pair with key [k] in a braced list carries. *)
Fixpoint first_pair (k : string) (init : list json.value)
    : option json.value :=
  match init with
  | [] => None
  | j :: rest =>
      match json.as_pair j with
      | Some (k', v) => if String.eqb k k' then Some v else first_pair k rest
      | None => first_pair k rest
      end
  end.

(** * Properties *)

(** ** Strings *)

Lemma append_assoc (s t u : string) : (s ++ t) ++ u = s ++ (t ++ u).
Proof.
  induction s as [|c s IH]; simpl.
  - reflexivity.
  - now rewrite IH.
Qed.

Lemma append_nil_r (s : string) : s ++ "" = s.
Proof.
  induction s as [|c s IH]; simpl; [reflexivity | now rewrite IH].
Qed.

Lemma ascii_compare_refl (c : ascii) : Ascii.compare c c = Eq.
Proof. unfold Ascii.compare. apply N.compare_refl. Qed.

Lemma ascii_compare_lt_trans (a b c : ascii) :
  Ascii.compare a b = Lt -> Ascii.compare b c = Lt -> Ascii.compare a c = Lt.
Proof.
  unfold Ascii.compare. rewrite !N.compare_lt_iff. apply N.lt_trans.
Qed.

Lemma string_compare_refl (s : string) : String.compare s s = Eq.
Proof.
  induction s as [|c s IH]; simpl.
  - reflexivity.
  - now rewrite ascii_compare_refl.
Qed.

Lemma string_compare_lt_trans (s t u : string) :
  String.compare s t = Lt -> String.compare t u = Lt ->
  String.compare s u = Lt.
Proof.
  revert t u.
  induction s as [|a s IH]; intros [|b t] [|c u]; simpl; try congruence.
  destruct (Ascii.compare a b) eqn:Eab; try discriminate;
    destruct (Ascii.compare b c) eqn:Ebc; try discriminate; intros Hst Htu.
  - apply Ascii.compare_eq_iff in Eab, Ebc. subst.
    rewrite ascii_compare_refl. now apply (IH t u).
  - apply Ascii.compare_eq_iff in Eab. subst. now rewrite Ebc.
  - apply Ascii.compare_eq_iff in Ebc. subst. now rewrite Eab.
  - now rewrite (ascii_compare_lt_trans a b c).
Qed.

Lemma string_compare_eqb (s t : string) :
  String.eqb s t = match String.compare s t with Eq => true | _ => false end.
Proof.
  destruct (String.eqb_spec s t) as [->|Hne].
  - now rewrite string_compare_refl.
  - destruct (String.compare s t) eqn:E; try reflexivity.
    apply String.compare_eq_iff in E. contradiction.
Qed.

(** ** The outcome monad *)

Lemma bind_ret_l {A B : Type} (a : A) (k : A -> cpp B) (w : world) :
  bind (ret a) k w = k a w.
Proof. reflexivity. Qed.

Lemma bind_ret_r {A : Type} (c : cpp A) (w : world) :
  bind c ret w = c w.
Proof. unfold bind, ret. now destruct (c w). Qed.

Lemma bind_assoc {A B C : Type} (c : cpp A) (k : A -> cpp B)
    (h : B -> cpp C) (w : world) :
  bind (bind c k) h w = bind c (fun a => bind (k a) h) w.
Proof. unfold bind. now destruct (c w). Qed.

(** An exception and undefined behaviour both cut a sequence short. *)
Lemma bind_throws {A B : Type} (c : cpp A) (k : A -> cpp B)
    (w w' : world) (e : string) :
  c w = Throws e w' -> bind c k w = Throws e w'.
Proof. unfold bind. now intros ->. Qed.

Lemma bind_undefined {A B : Type} (c : cpp A) (k : A -> cpp B) (w : world) :
  c w = Undefined -> bind c k w = Undefined.
Proof. unfold bind. now intros ->. Qed.

Lemma bind_returns {A B : Type} (c : cpp A) (k : A -> cpp B)
    (w w' : world) (a : A) :
  c w = Returns a w' -> bind c k w = k a w'.
Proof. unfold bind. now intros ->. Qed.

Lemma write_stdout_run (s : string) (w : world) :
  write_stdout s w = Returns tt (mkWorld (stdout w ++ s) (stderr w)).
Proof. reflexivity. Qed.

(** Two writes in a row are one write of the two texts. *)
Lemma write_stdout_twice (s t : string) (w : world) :
  (write_stdout s ;; write_stdout t) w = write_stdout (s ++ t) w.
Proof.
  unfold bind, write_stdout. simpl. now rewrite append_assoc.
Qed.

(** ** [int] *)

Lemma is_intb_spec (z : Z) : is_intb z = true <-> is_int z.
Proof.
  unfold is_intb, is_int.
  rewrite andb_true_iff, !Z.leb_le. tauto.
Qed.

Lemma int_add_in_range (a b : Z) (w : world) :
  is_int (a + b) -> int_add a b w = Returns (a + b) w.
Proof.
  intros H. unfold int_add.
  apply is_intb_spec in H. now rewrite H.
Qed.

Lemma int_add_overflow (a b : Z) (w : world) :
  ~ is_int (a + b) -> int_add a b w = Undefined.
Proof.
  intros H. unfold int_add.
  destruct (is_intb (a + b)) eqn:E; [|reflexivity].
  apply is_intb_spec in E. contradiction.
Qed.

Lemma int_add_never_throws (a b : Z) (w w' : world) (e : string) :
  int_add a b w <> Throws e w'.
Proof.
  unfold int_add. destruct (is_intb (a + b)); discriminate.
Qed.

(** ** Objects as ordered maps *)

Lemma object_set_keys (key : string) (v : json.value)
    (m : list (string * json.value)) (k : string) :
  In k (json.keys (json.object_set key v m)) <-> k = key \/ In k (json.keys m).
Proof.
  unfold json.keys.
  induction m as [|[k0 x] rest IH]; simpl.
  - intuition.
  - destruct (String.compare key k0) eqn:E; simpl.
    + apply String.compare_eq_iff in E. subst k0. intuition.
    + intuition.
    + rewrite IH. intuition.
Qed.

Lemma object_get_set_same (key : string) (v : json.value)
    (m : list (string * json.value)) :
  json.object_get key (json.object_set key v m) = Some v.
Proof.
  induction m as [|[k0 x] rest IH]; simpl.
  - now rewrite String.eqb_refl.
  - destruct (String.compare key k0) eqn:E; simpl.
    + now rewrite String.eqb_refl.
    + now rewrite String.eqb_refl.
    + rewrite string_compare_eqb, E. exact IH.
Qed.

Lemma object_get_set_other (key k : string) (v : json.value)
    (m : list (string * json.value)) :
  k <> key ->
  json.object_get k (json.object_set key v m) = json.object_get k m.
Proof.
  intros Hne. apply String.eqb_neq in Hne.
  induction m as [|[k0 x] rest IH]; simpl.
  - now rewrite Hne.
  - destruct (String.compare key k0) eqn:E; simpl.
    + apply String.compare_eq_iff in E. subst k0. now rewrite Hne.
    + now rewrite Hne.
    + now rewrite IH.
Qed.

Lemma object_set_Forall (P : string * json.value -> Prop) (key : string)
    (v : json.value) (m : list (string * json.value)) :
  P (key, v) -> Forall P m -> Forall P (json.object_set key v m).
Proof.
  intros Hkv Hm.
  induction Hm as [|[k0 x] rest Hx Hrest IH]; simpl.
  - now constructor.
  - destruct (String.compare key k0); repeat constructor; assumption.
Qed.

(** Assignment through [operator[]] keeps the keys of an object in strictly
    increasing order. *)
Lemma object_set_ordered (key : string) (v : json.value)
    (m : list (string * json.value)) :
  json.ordered m -> json.ordered (json.object_set key v m).
Proof.
  unfold json.ordered.
  induction 1 as [|[k0 x] rest Hrest IH Hall]; simpl.
  - repeat constructor.
  - destruct (String.compare key k0) eqn:E.
    + apply String.compare_eq_iff in E. subst k0.
      now constructor.
    + constructor.
      * now constructor.
      * constructor; [exact E|].
        eapply Forall_impl; [|exact Hall].
        intros [k1 x1]. unfold json.key_lt. simpl.
        now apply string_compare_lt_trans.
    + constructor; [exact IH|].
      apply object_set_Forall; [|exact Hall].
      unfold json.key_lt. simpl.
      rewrite String.compare_antisym, E. reflexivity.
Qed.

Lemma ordered_keys_NoDup (m : list (string * json.value)) :
  json.ordered m -> NoDup (json.keys m).
Proof.
  unfold json.ordered, json.keys.
  induction 1 as [|[k0 x] rest Hrest IH Hall]; simpl; constructor.
  - intros Hin. apply in_map_iff in Hin. destruct Hin as [[k1 x1] [Hk Hin]].
    simpl in Hk. subst k1.
    rewrite Forall_forall in Hall. specialize (Hall _ Hin).
    unfold json.key_lt in Hall. simpl in Hall.
    now rewrite string_compare_refl in Hall.
  - exact IH.
Qed.

(** ** Fixed-precision formatting *)

(** The rounded quotient is within half a unit of the exact one. *)
Lemma round_half_even_nearest (num den : Z) :
  0 <= num -> 0 < den ->
  2 * Z.abs (den * fmt.round_half_even num den - num) <= den.
Proof.
  intros Hnum Hden. unfold fmt.round_half_even.
  pose proof (Z.div_mod num den ltac:(lia)) as Hdm.
  pose proof (Z.mod_pos_bound num den Hden) as Hr.
  set (q := num / den) in *. set (r := num mod den) in *.
  destruct (den <? 2 * r) eqn:E1.
  - apply Z.ltb_lt in E1. lia.
  - apply Z.ltb_ge in E1.
    destruct ((2 * r =? den) && Z.odd q) eqn:E2.
    + apply andb_true_iff in E2. destruct E2 as [E2 _].
      apply Z.eqb_eq in E2. lia.
    + lia.
Qed.

(** The double that stands for the literal is the binary64 number nearest
    to 314159/100000: it is [m * 2^(-51)] with a 53-bit [m], less than half
    a unit in the last place away. *)
Lemma literal_3_14159_nearest :
  exists m : positive,
    Prim2SF fetchcontent.literal_3_14159 = S754_finite false m (-51) /\
    2 ^ 52 <= Z.pos m < 2 ^ 53 /\
    2 * Z.abs (Z.pos m * 100000 - 314159 * 2 ^ 51) < 100000.
Proof.
  exists 7074231776675438%positive.
  split; [reflexivity|]. split; [lia|reflexivity].
Qed.

(** Times one hundred, the double lies above 314 by less than a half:
    every rounding to two decimals, to nearest under any rule for ties or
    towards zero, ends at 3.14. *)
Lemma literal_3_14159_between :
  exists m : positive,
    Prim2SF fetchcontent.literal_3_14159 = S754_finite false m (-51) /\
    314 * 2 ^ 51 < Z.pos m * 100 /\
    2 * (Z.pos m * 100 - 314 * 2 ^ 51) < 2 ^ 51 /\
    fmt.scale 2 m (-51) = 314.
Proof.
  exists 7074231776675438%positive.
  repeat split; reflexivity.
Qed.

(** ** The two programs, run from any world *)

Lemma get_version_run (w : world) :
  example.get_version w = Returns "1.0.0" w.
Proof. reflexivity. Qed.

Lemma add_in_range (a b : Z) (w : world) :
  is_int (a + b) -> example.add a b w = Returns (a + b) w.
Proof. apply int_add_in_range. Qed.

Lemma print_run (f : string) (args : list float) (text : string) (w : world) :
  fmt.vformat f args = Some text ->
  fmt.print f args w = Returns tt (mkWorld (stdout w ++ text) (stderr w)).
Proof. unfold fmt.print. now intros ->. Qed.

Lemma consumer_main_run (w : world) :
  consumer.main w =
  Returns 0 (mkWorld (stdout w ++ consumer_text) (stderr w)).
Proof.
  unfold consumer.main, bind, cout_int, endl, cout_str, write_stdout.
  simpl. rewrite !append_assoc. reflexivity.
Qed.

Lemma hello_format :
  fmt.vformat ("Hello from fmt library!" ++ nl) [] =
  Some ("Hello from fmt library!" ++ nl).
Proof. reflexivity. Qed.

Lemma number_format :
  fmt.vformat ("Formatted number: {:.2f}" ++ nl)
    [fetchcontent.literal_3_14159] =
  Some ("Formatted number: 3.14" ++ nl).
Proof. vm_compute. reflexivity. Qed.

Lemma fetchcontent_main_run (w : world) :
  fetchcontent.main w =
  Returns 0 (mkWorld (stdout w ++ fetchcontent_text) (stderr w)).
Proof.
  unfold fetchcontent.main.
  rewrite (bind_returns _ _ _ _ _ (print_run _ _ _ w hello_format)).
  rewrite (bind_returns _ _ _ _ _ (print_run _ _ _ _ number_format)).
  unfold bind, json.set, json.of_list, endl, cout_str, write_stdout, ret.
  cbn [stdout stderr]. unfold fetchcontent_text.
  rewrite !append_assoc. reflexivity.
Qed.

(** The serialized text, line by line. *)
Lemma fetchcontent_dump_text :
  let q := fun s => json.quote ++ s ++ json.quote in
  json.dump 2 fetchcontent_json =
  "{" ++ nl ++
  "  " ++ q "dependencies" ++ ": [" ++ nl ++
  "    " ++ q "fmt" ++ "," ++ nl ++
  "    " ++ q "nlohmann_json" ++ nl ++
  "  ]," ++ nl ++
  "  " ++ q "name" ++ ": " ++ q "FetchContent Example" ++ "," ++ nl ++
  "  " ++ q "version" ++ ": " ++ q "1.0.0" ++ nl ++
  "}".
Proof. reflexivity. Qed.

(** The object is the one the three assignments of [main] build, starting
    from a null value. *)
Lemma fetchcontent_json_built (w : world) :
  (j <- json.set "name" (json.Str "FetchContent Example") json.Null ;;
   j <- json.set "version" (json.Str "1.0.0") j ;;
   json.set "dependencies"
     (json.of_list [json.Str "fmt"; json.Str "nlohmann_json"]) j) w =
  Returns fetchcontent_json w.
Proof. reflexivity. Qed.

(** * The claims *)

(** ** [example::add] *)

(** C1 (as amended).  For every pair of [int] inputs [a] and [b] whose sum
    is representable as an [int], [example::add(a, b)] returns the
    arithmetic sum [a + b] and leaves the world as it was. *)
Theorem add_returns_sum (a b : Z) (w : world) :
  is_int a -> is_int b -> is_int (a + b) ->
  example.add a b w = Returns (a + b) w.
Proof.
  intros _ _ Hsum. now apply add_in_range.
Qed.

Lemma add_returns_sum_witness :
  is_int 2147483646 /\ is_int 1 /\ is_int (2147483646 + 1) /\
  example.add 2147483646 1 empty_world = Returns 2147483647 empty_world.
Proof.
  assert (Ha : is_int 2147483646) by (apply is_intb_spec; reflexivity).
  assert (Hb : is_int 1) by (apply is_intb_spec; reflexivity).
  assert (Hs : is_int (2147483646 + 1)) by (apply is_intb_spec; reflexivity).
  refine (conj Ha (conj Hb (conj Hs _))).
  exact (add_returns_sum 2147483646 1 empty_world Ha Hb Hs).
Defined.

(** C1 (as stated) fails at [INT_MAX] and [1]: the arithmetic sum is
    2147483648, which no [int] is, and the call does not return it. *)
Lemma add_returns_sum_counterexample :
  is_int 2147483647 /\ is_int 1 /\
  ~ is_int (2147483647 + 1) /\
  example.add 2147483647 1 empty_world <>
  Returns (2147483647 + 1) empty_world.
Proof.
  split; [apply is_intb_spec; reflexivity|].
  split; [apply is_intb_spec; reflexivity|].
  split.
  - intros H. apply is_intb_spec in H. discriminate H.
  - discriminate.
Qed.

(** C3.  [example::add(5, 7)] returns exactly 12. *)
Theorem add_5_7 (w : world) : example.add 5 7 w = Returns 12 w.
Proof. reflexivity. Qed.

(** C10.  [example::add] is commutative, and 0 is its identity: for all
    [a] and [b] the calls [add(a, b)] and [add(b, a)] end the same way, and
    for every [int] [a] the call [add(a, 0)] returns [a]. *)
Theorem add_comm_identity :
  (forall (a b : Z) (w : world), example.add a b w = example.add b a w) /\
  (forall (a : Z) (w : world), is_int a -> example.add a 0 w = Returns a w).
Proof.
  split.
  - intros a b w. unfold example.add, int_add. now rewrite (Z.add_comm a b).
  - intros a w Ha. unfold example.add.
    rewrite int_add_in_range; rewrite Z.add_0_r; [reflexivity | exact Ha].
Qed.

Lemma add_comm_identity_witness :
  example.add 5 7 empty_world = example.add 7 5 empty_world /\
  is_int (-2147483648) /\
  example.add (-2147483648) 0 empty_world = Returns (-2147483648) empty_world.
Proof.
  assert (Ha : is_int (-2147483648)) by (apply is_intb_spec; reflexivity).
  split; [exact (proj1 add_comm_identity 5 7 empty_world)|].
  split; [exact Ha|].
  exact (proj2 add_comm_identity (-2147483648) empty_world Ha).
Defined.

(** ** [example::get_version] *)

(** C2.  Every call of [example::get_version()], from any world, returns
    exactly the string "1.0.0". *)
Theorem get_version_returns_1_0_0 (w : world) :
  example.get_version w = Returns "1.0.0" w.
Proof. reflexivity. Qed.

(** ** The library as a whole *)

(** C7 (as amended).  [example::get_version] returns a result on every
    call; [example::add] returns a result, an [int], for every pair of
    [int] inputs whose sum is representable as an [int]; neither operation
    has an error path: no call ends in an exception. *)
Theorem library_total_on_representable :
  (forall w : world, exists v : string, example.get_version w = Returns v w) /\
  (forall (a b : Z) (w : world),
     is_int a -> is_int b -> is_int (a + b) ->
     exists r : Z, is_int r /\ example.add a b w = Returns r w) /\
  (forall (w w' : world) (e : string), example.get_version w <> Throws e w') /\
  (forall (a b : Z) (w w' : world) (e : string),
     example.add a b w <> Throws e w').
Proof.
  repeat split.
  - intros w. now exists "1.0.0".
  - intros a b w _ _ Hsum. exists (a + b). split; [exact Hsum|].
    now apply add_in_range.
  - discriminate.
  - intros a b w w' e. apply int_add_never_throws.
Qed.

Lemma library_total_on_representable_witness :
  is_int 5 /\ is_int 7 /\ is_int (5 + 7) /\
  exists r : Z, is_int r /\ example.add 5 7 empty_world = Returns r empty_world.
Proof.
  assert (Ha : is_int 5) by (apply is_intb_spec; reflexivity).
  assert (Hb : is_int 7) by (apply is_intb_spec; reflexivity).
  assert (Hs : is_int (5 + 7)) by (apply is_intb_spec; reflexivity).
  refine (conj Ha (conj Hb (conj Hs _))).
  exact (proj1 (proj2 library_total_on_representable) 5 7 empty_world Ha Hb Hs).
Defined.

(** C7 (as stated) fails at [INT_MAX] and [1]: the sum overflows, the
    behaviour of the call is undefined and no result is produced. *)
Lemma library_total_counterexample :
  is_int 2147483647 /\ is_int 1 /\
  example.add 2147483647 1 empty_world = Undefined /\
  ~ exists (r : Z) (w' : world),
      example.add 2147483647 1 empty_world = Returns r w'.
Proof.
  split; [apply is_intb_spec; reflexivity|].
  split; [apply is_intb_spec; reflexivity|].
  split; [reflexivity|].
  intros [r [w' H]]. discriminate H.
Qed.

(** C8.  [example::get_version] and [example::add] are deterministic and
    free of side effects: what a call returns depends on its arguments
    alone, not on the world it runs in, and the world a call leaves behind
    is the world it started in. *)
Theorem library_deterministic_and_pure :
  (forall w1 w2 : world,
     returned (example.get_version w1) = returned (example.get_version w2)) /\
  (forall w : world, final (example.get_version w) = Some w) /\
  (forall (a b : Z) (w1 w2 : world),
     returned (example.add a b w1) = returned (example.add a b w2)) /\
  (forall (a b : Z) (w w' : world),
     final (example.add a b w) = Some w' -> w' = w).
Proof.
  repeat split.
  - intros a b w1 w2. unfold example.add, int_add.
    now destruct (is_intb (a + b)).
  - intros a b w w'. unfold example.add, int_add.
    destruct (is_intb (a + b)); simpl; congruence.
Qed.

Lemma library_deterministic_and_pure_witness :
  final (example.add 5 7 empty_world) = Some empty_world /\
  empty_world = empty_world.
Proof.
  split; [reflexivity|].
  exact (proj2 (proj2 (proj2 library_deterministic_and_pure))
           5 7 empty_world empty_world eq_refl).
Defined.

(** ** The entry points *)


(** C9.  Both entry points return exit status 0, whatever world they are
    started in. *)
Theorem mains_return_zero (w : world) :
  returned (consumer.main w) = Some 0 /\
  returned (fetchcontent.main w) = Some 0.
Proof.
  now rewrite consumer_main_run, fetchcontent_main_run.
Qed.

(** C4.  The formatting example's entry point formats its [double]
    3.14159 with two decimal places as the text "3.14", and prints it on
    the line that follows the greeting. *)
Theorem fetchcontent_prints_3_14 :
  fmt.format_fixed 2 fetchcontent.literal_3_14159 = "3.14" /\
  forall w : world,
    fetchcontent.main w =
    Returns 0
      (mkWorld
         (stdout w ++
          ("Hello from fmt library!" ++ nl) ++
          ("Formatted number: " ++
           fmt.format_fixed 2 fetchcontent.literal_3_14159 ++ nl) ++
          (nl ++ "JSON output:" ++ nl ++
           json.dump 2 fetchcontent_json ++ nl))
         (stderr w)).
Proof.
  assert (E : fmt.format_fixed 2 fetchcontent.literal_3_14159 = "3.14")
    by (vm_compute; reflexivity).
  split; [exact E|].
  intros w. rewrite E. apply fetchcontent_main_run.
Qed.

(** C5.  The serialization example's entry point emits an object whose
    keys are exactly name, version and dependencies, each once, and whose
    dependencies member is the array of the two strings "fmt" and
    "nlohmann_json", in that order: the three assignments of [main] build
    that object from a null value, [main] prints its eight lines after the
    two lines of the formatting part, and those lines are [dump(2)] of the
    object. *)
Theorem fetchcontent_emits_three_fields :
  (forall w : world,
     (j <- json.set "name" (json.Str "FetchContent Example") json.Null ;;
      j <- json.set "version" (json.Str "1.0.0") j ;;
      json.set "dependencies"
        (json.of_list [json.Str "fmt"; json.Str "nlohmann_json"]) j) w =
     Returns (json.Object fetchcontent_members) w) /\
  (forall w : world,
     fetchcontent.main w =
     Returns 0
       (mkWorld
          (stdout w ++
           ("Hello from fmt library!" ++ nl ++
            "Formatted number: 3.14" ++ nl ++
            nl ++ "JSON output:" ++ nl) ++
           fetchcontent_json_text ++ nl)
          (stderr w))) /\
  json.dump 2 (json.Object fetchcontent_members) = fetchcontent_json_text /\
  json.ordered fetchcontent_members /\
  NoDup (json.keys fetchcontent_members) /\
  (forall k : string,
     In k (json.keys fetchcontent_members) <->
     k = "name" \/ k = "version" \/ k = "dependencies") /\
  json.object_get "dependencies" fetchcontent_members =
  Some (json.Array [json.Str "fmt"; json.Str "nlohmann_json"]).
Proof.
  assert (Hord : json.ordered fetchcontent_members).
  { change fetchcontent_members with
      (json.object_set "dependencies"
         (json.of_list [json.Str "fmt"; json.Str "nlohmann_json"])
         (json.object_set "version" (json.Str "1.0.0")
            (json.object_set "name" (json.Str "FetchContent Example") []))).
    repeat apply object_set_ordered. constructor. }
  assert (Hdump : json.dump 2 (json.Object fetchcontent_members) =
                  fetchcontent_json_text) by reflexivity.
  split; [|split; [|split; [exact Hdump|split; [exact Hord|
    split; [now apply ordered_keys_NoDup|split]]]]].
  - intros w. apply fetchcontent_json_built.
  - intros w. rewrite fetchcontent_main_run. unfold fetchcontent_text.
    unfold fetchcontent_json. rewrite Hdump. now rewrite !append_assoc.
  - intros k. simpl. intuition congruence.
  - reflexivity.
Qed.

(** * Further properties *)

(** ** [example::add]: the bounds *)

Lemma int_bounds : INT_MIN = -2147483648 /\ INT_MAX = 2147483647.
Proof. split; reflexivity. Qed.

(** The two ways a call of [add] can end, read off the sum. *)
Lemma add_returns_iff_representable (a b r : Z) (w w' : world) :
  (example.add a b w = Returns r w' <->
   is_int (a + b) /\ r = a + b /\ w' = w) /\
  (example.add a b w = Undefined <-> ~ is_int (a + b)).
Proof.
  unfold example.add, int_add.
  destruct (is_intb (a + b)) eqn:E.
  - apply is_intb_spec in E. unfold ret. split; split.
    + intros [= <- <-]. auto.
    + intros [_ [-> ->]]. reflexivity.
    + discriminate.
    + intros H. contradiction.
  - assert (Hn : ~ is_int (a + b)).
    { intros H. apply is_intb_spec in H. congruence. }
    unfold undefined. split; split.
    + discriminate.
    + intros [H _]. contradiction.
    + intros _. exact Hn.
    + reflexivity.
Qed.

(** X1.  The pre-check a caller can make with [int] arithmetic alone
    decides the call: for [int]s [a] and [b], [add(a, b)] is undefined
    exactly when [b > 0] and [a > INT_MAX - b], or [b < 0] and
    [a < INT_MIN - b], and returns [a + b] exactly when neither holds;
    the difference each test computes is itself an [int]. *)
Theorem add_defined_iff_guard (a b : Z) (w : world) :
  is_int a -> is_int b ->
  (0 < b -> is_int (INT_MAX - b)) /\
  (b < 0 -> is_int (INT_MIN - b)) /\
  (example.add a b w = Undefined <->
   (0 < b /\ INT_MAX - b < a) \/ (b < 0 /\ a < INT_MIN - b)) /\
  (example.add a b w = Returns (a + b) w <->
   ~ ((0 < b /\ INT_MAX - b < a) \/ (b < 0 /\ a < INT_MIN - b))).
Proof.
  intros Ha Hb.
  destruct (add_returns_iff_representable a b (a + b) w w) as [Hret Hund].
  rewrite Hret, Hund. clear Hret Hund.
  unfold is_int in *. destruct int_bounds as [Emin Emax].
  rewrite Emin, Emax in *.
  repeat split; lia.
Qed.

Lemma add_defined_iff_guard_witness :
  is_int 2147483647 /\ is_int 1 /\
  (0 < 1 -> is_int (INT_MAX - 1)) /\
  (1 < 0 -> is_int (INT_MIN - 1)) /\
  (example.add 2147483647 1 empty_world = Undefined <->
   (0 < 1 /\ INT_MAX - 1 < 2147483647) \/
   (1 < 0 /\ 2147483647 < INT_MIN - 1)) /\
  (example.add 2147483647 1 empty_world =
   Returns (2147483647 + 1) empty_world <->
   ~ ((0 < 1 /\ INT_MAX - 1 < 2147483647) \/
      (1 < 0 /\ 2147483647 < INT_MIN - 1))).
Proof.
  assert (Ha : is_int 2147483647) by (apply is_intb_spec; reflexivity).
  assert (Hb : is_int 1) by (apply is_intb_spec; reflexivity).
  refine (conj Ha (conj Hb _)).
  exact (add_defined_iff_guard 2147483647 1 empty_world Ha Hb).
Defined.

(** X2.  Two [int]s of opposite sign never overflow: when one argument is
    non-negative and the other non-positive, [add] returns their sum. *)
Theorem add_opposite_signs (a b : Z) (w : world) :
  is_int a -> is_int b ->
  (0 <= a /\ b <= 0) \/ (a <= 0 /\ 0 <= b) ->
  example.add a b w = Returns (a + b) w.
Proof.
  intros Ha Hb Hsign. apply add_in_range.
  unfold is_int in *. destruct int_bounds as [Emin Emax].
  rewrite Emin, Emax in *. lia.
Qed.

Lemma add_opposite_signs_witness :
  is_int 2147483647 /\ is_int (-2147483648) /\
  ((0 <= 2147483647 /\ -2147483648 <= 0) \/
   (2147483647 <= 0 /\ 0 <= -2147483648)) /\
  example.add 2147483647 (-2147483648) empty_world = Returns (-1) empty_world.
Proof.
  assert (Ha : is_int 2147483647) by (apply is_intb_spec; reflexivity).
  assert (Hb : is_int (-2147483648)) by (apply is_intb_spec; reflexivity).
  assert (Hs : (0 <= 2147483647 /\ -2147483648 <= 0) \/
               (2147483647 <= 0 /\ 0 <= -2147483648)) by (left; lia).
  refine (conj Ha (conj Hb (conj Hs _))).
  exact (add_opposite_signs 2147483647 (-2147483648) empty_world Ha Hb Hs).
Defined.

(** ** [example::add]: chains of calls *)

(** X3.  Two calls in a row may be grouped either way when both
    intermediate sums and the total are representable: [add(add(a, b), c)]
    and [add(a, add(b, c))] both return [a + b + c]. *)
Theorem add_assoc_in_range (a b c : Z) (w : world) :
  is_int (a + b) -> is_int (b + c) -> is_int (a + b + c) ->
  (x <- example.add a b ;; example.add x c) w = Returns (a + b + c) w /\
  (y <- example.add b c ;; example.add a y) w = Returns (a + b + c) w.
Proof.
  intros Hab Hbc Habc. split.
  - rewrite (bind_returns _ _ _ _ _ (add_in_range a b w Hab)).
    now apply add_in_range.
  - rewrite (bind_returns _ _ _ _ _ (add_in_range b c w Hbc)).
    replace (a + b + c) with (a + (b + c)) by lia.
    apply add_in_range. now replace (a + (b + c)) with (a + b + c) by lia.
Qed.

Lemma add_assoc_in_range_witness :
  is_int (2147483000 + 600) /\ is_int (600 + 47) /\
  is_int (2147483000 + 600 + 47) /\
  (x <- example.add 2147483000 600 ;; example.add x 47) empty_world =
  Returns 2147483647 empty_world /\
  (y <- example.add 600 47 ;; example.add 2147483000 y) empty_world =
  Returns 2147483647 empty_world.
Proof.
  assert (H1 : is_int (2147483000 + 600)) by (apply is_intb_spec; reflexivity).
  assert (H2 : is_int (600 + 47)) by (apply is_intb_spec; reflexivity).
  assert (H3 : is_int (2147483000 + 600 + 47))
    by (apply is_intb_spec; reflexivity).
  refine (conj H1 (conj H2 (conj H3 _))).
  exact (add_assoc_in_range 2147483000 600 47 empty_world H1 H2 H3).
Defined.

(** X4.  The grouping matters at the bounds: when [a + b] overflows, the
    chain [add(add(a, b), c)] is undefined whatever [c] is, while the other
    grouping [add(a, add(b, c))] returns [a + b + c] for every [c] that
    keeps [b + c] and the total representable. *)
Theorem add_grouping_matters (a b : Z) (w : world) :
  ~ is_int (a + b) ->
  (forall c : Z,
     (x <- example.add a b ;; example.add x c) w = Undefined) /\
  (forall c : Z,
     is_int (b + c) -> is_int (a + (b + c)) ->
     (y <- example.add b c ;; example.add a y) w = Returns (a + b + c) w).
Proof.
  intros Hab. split.
  - intros c. apply bind_undefined. now apply int_add_overflow.
  - intros c Hbc Habc.
    rewrite (bind_returns _ _ _ _ _ (add_in_range b c w Hbc)).
    replace (a + b + c) with (a + (b + c)) by lia.
    now apply add_in_range.
Qed.

Lemma add_grouping_matters_witness :
  ~ is_int (2147483647 + 1) /\
  is_int (1 + -1) /\ is_int (2147483647 + (1 + -1)) /\
  (x <- example.add 2147483647 1 ;; example.add x (-1)) empty_world =
  Undefined /\
  (y <- example.add 1 (-1) ;; example.add 2147483647 y) empty_world =
  Returns 2147483647 empty_world.
Proof.
  assert (Hab : ~ is_int (2147483647 + 1)).
  { intros H. apply is_intb_spec in H. discriminate H. }
  assert (Hbc : is_int (1 + -1)) by (apply is_intb_spec; reflexivity).
  assert (Habc : is_int (2147483647 + (1 + -1)))
    by (apply is_intb_spec; reflexivity).
  refine (conj Hab (conj Hbc (conj Habc _))).
  split.
  - exact (proj1 (add_grouping_matters 2147483647 1 empty_world Hab) (-1)).
  - exact (proj2 (add_grouping_matters 2147483647 1 empty_world Hab) (-1)
             Hbc Habc).
Defined.

(** X5.  Adding [b] and then its opposite gives back the first argument:
    for [int]s [a] and [b] with a representable sum, and [b] other than
    [INT_MIN] (whose opposite is no [int]), [add(add(a, b), -b)] returns
    [a]. *)
Theorem add_then_opposite (a b : Z) (w : world) :
  is_int a -> is_int b -> is_int (a + b) -> b <> INT_MIN ->
  is_int (- b) /\
  (s <- example.add a b ;; example.add s (- b)) w = Returns a w.
Proof.
  intros Ha Hb Hab Hmin.
  assert (Hopp : is_int (- b)).
  { unfold is_int in *. destruct int_bounds as [Emin Emax].
    rewrite Emin, Emax in *. lia. }
  split; [exact Hopp|].
  rewrite (bind_returns _ _ _ _ _ (add_in_range a b w Hab)).
  replace a with (a + b + - b) at 2 by lia.
  apply add_in_range. now replace (a + b + - b) with a by lia.
Qed.

Lemma add_then_opposite_witness :
  is_int 5 /\ is_int 7 /\ is_int (5 + 7) /\ 7 <> INT_MIN /\
  is_int (- 7) /\
  (s <- example.add 5 7 ;; example.add s (- 7)) empty_world =
  Returns 5 empty_world.
Proof.
  assert (Ha : is_int 5) by (apply is_intb_spec; reflexivity).
  assert (Hb : is_int 7) by (apply is_intb_spec; reflexivity).
  assert (Hab : is_int (5 + 7)) by (apply is_intb_spec; reflexivity).
  assert (Hmin : 7 <> INT_MIN) by discriminate.
  refine (conj Ha (conj Hb (conj Hab (conj Hmin _)))).
  exact (add_then_opposite 5 7 empty_world Ha Hb Hab Hmin).
Defined.

(** ** The consumer: the decimal text of an [int] *)

Lemma to_int_proper (n : Z) :
  Z.to_int n <> Decimal.Pos Decimal.Nil /\
  Z.to_int n <> Decimal.Neg Decimal.Nil.
Proof.
  destruct n as [|p|p]; simpl; split; try discriminate;
    intros [= H]; now apply (DecimalPos.Unsigned.to_uint_nonnil p).
Qed.

(** X6.  The text [std::cout << n] writes for an [int] reads back as that
    number, so two different sums never print alike. *)
Theorem int_to_string_injective :
  (forall n : Z,
     option_map Z.of_int (NilZero.int_of_string (int_to_string n)) = Some n) /\
  (forall n n' : Z, int_to_string n = int_to_string n' -> n = n').
Proof.
  assert (Hback : forall n : Z,
            option_map Z.of_int (NilZero.int_of_string (int_to_string n)) =
            Some n).
  { intros n. unfold int_to_string.
    destruct (to_int_proper n) as [Hp Hn].
    rewrite (NilZero.isi _ Hp Hn). simpl. now rewrite DecimalZ.of_to. }
  split; [exact Hback|].
  intros n n' E.
  pose proof (Hback n) as H. rewrite E, (Hback n') in H. congruence.
Qed.

Lemma int_to_string_injective_witness :
  int_to_string 12 = int_to_string (5 + 7) /\ 12 = 5 + 7.
Proof.
  split; [reflexivity|].
  exact (proj2 int_to_string_injective 12 (5 + 7) eq_refl).
Defined.

(** ** fetchcontent: the formatted number *)

(** X7.  The format string of the example is well-formed for every
    [double]: whatever number is passed, the call returns, throws no
    [format_error], and appends the label, the number in fixed notation
    with precision two, and a newline to the standard output. *)
Theorem print_number_any_double (x : float) (w : world) :
  fmt.print ("Formatted number: {:.2f}" ++ nl) [x] w =
  Returns tt
    (mkWorld
       (stdout w ++ "Formatted number: " ++ fmt.format_fixed 2 x ++ nl)
       (stderr w)).
Proof.
  apply print_run. reflexivity.
Qed.

Lemma string_of_uint_digits (u : Decimal.uint) :
  Forall is_digit_char (list_ascii_of_string (NilEmpty.string_of_uint u)).
Proof.
  induction u; simpl; constructor; try assumption; discriminate.
Qed.

Lemma nat_text_digits (z : Z) :
  fmt.nat_text z <> "" /\
  Forall is_digit_char (list_ascii_of_string (fmt.nat_text z)).
Proof.
  unfold fmt.nat_text, NilZero.string_of_uint.
  destruct (N.to_uint (Z.to_N z)) eqn:E;
    try (split; [discriminate | rewrite <- E; apply string_of_uint_digits
                               || apply string_of_uint_digits]).
  split; [discriminate|]. repeat constructor. discriminate.
Qed.

(** Below one hundred, the padded text is two digits. *)
Lemma pad_two_digits (r : Z) :
  0 <= r < 100 ->
  exists d1 d2 : ascii,
    fmt.pad_zeros 2 (fmt.nat_text r) = String d1 (String d2 "") /\
    is_digit_char d1 /\ is_digit_char d2.
Proof.
  intros Hr.
  assert (H : exists n : nat, (n < 100)%nat /\ r = Z.of_nat n).
  { exists (Z.to_nat r). split; lia. }
  destruct H as [n [Hn ->]]. clear Hr.
  do 100 (destruct n as [|n];
          [do 2 eexists; split; [reflexivity | split; discriminate]|]).
  lia.
Qed.

(** X8.  A finite [double] printed by the example always shows exactly two
    digits after the point: the text is an optional minus sign, one or more
    digits, the point, and two digits. *)
Theorem format_fixed_two_decimals (x : float) (s : bool) (m : positive)
    (e : Z) :
  Prim2SF x = S754_finite s m e ->
  exists (ip : string) (d1 d2 : ascii),
    fmt.format_fixed 2 x =
    fmt.sign_text s ++ ip ++ "." ++ String d1 (String d2 "") /\
    ip <> "" /\
    Forall is_digit_char (list_ascii_of_string ip) /\
    is_digit_char d1 /\ is_digit_char d2.
Proof.
  intros E. unfold fmt.format_fixed. rewrite E.
  unfold fmt.fixed_digits.
  set (scaled := fmt.scale 2 m e).
  change (10 ^ Z.of_nat 2) with 100.
  destruct (pad_two_digits (scaled mod 100)) as [d1 [d2 [Hpad [H1 H2]]]].
  { apply Z.mod_pos_bound. lia. }
  destruct (nat_text_digits (scaled / 100)) as [Hne Hdig].
  exists (fmt.nat_text (scaled / 100)), d1, d2.
  rewrite Hpad. repeat split; assumption.
Qed.

Lemma format_fixed_two_decimals_witness :
  Prim2SF fetchcontent.literal_3_14159 =
  S754_finite false 7074231776675438 (-51) /\
  exists (ip : string) (d1 d2 : ascii),
    fmt.format_fixed 2 fetchcontent.literal_3_14159 =
    fmt.sign_text false ++ ip ++ "." ++ String d1 (String d2 "") /\
    ip <> "" /\
    Forall is_digit_char (list_ascii_of_string ip) /\
    is_digit_char d1 /\ is_digit_char d2.
Proof.
  split; [reflexivity|].
  exact (format_fixed_two_decimals fetchcontent.literal_3_14159 false
           7074231776675438 (-51) eq_refl).
Defined.

(** ** fetchcontent: text without fields *)

Lemma vformat_from_text (s : string) (args : list float) (out : string) :
  brace_free s = true ->
  fmt.vformat_from fmt.InText s args out = Some (out ++ s).
Proof.
  revert out. induction s as [|c s IH]; intros out H; simpl.
  - now rewrite append_nil_r.
  - simpl in H. apply andb_true_iff in H. destruct H as [H Hs].
    apply andb_true_iff in H. destruct H as [Ho Hc].
    apply negb_true_iff in Ho, Hc. rewrite Ho, Hc.
    rewrite (IH _ Hs). unfold fmt.push. now rewrite append_assoc.
Qed.

Lemma vformat_from_open_end (s : string) (args : list float) (out : string) :
  brace_free s = true ->
  fmt.vformat_from fmt.InText (s ++ "{") args out = None /\
  fmt.vformat_from fmt.InText (s ++ "}") args out = None.
Proof.
  revert out. induction s as [|c s IH]; intros out H; simpl.
  - split; reflexivity.
  - simpl in H. apply andb_true_iff in H. destruct H as [H Hs].
    apply andb_true_iff in H. destruct H as [Ho Hc].
    apply negb_true_iff in Ho, Hc. rewrite Ho, Hc.
    now apply IH.
Qed.

(** X12.  A format string without braces is printed as it stands, whatever
    arguments come with it: the call returns and appends exactly that text.
    With a single brace added at its end the call throws [format_error]
    and writes nothing. *)
Theorem print_plain_text (s : string) (args : list float) (w : world) :
  brace_free s = true ->
  fmt.print s args w = Returns tt (mkWorld (stdout w ++ s) (stderr w)) /\
  fmt.print (s ++ "{") args w = Throws "format_error" w /\
  fmt.print (s ++ "}") args w = Throws "format_error" w.
Proof.
  intros H. split; [|split].
  - apply print_run. unfold fmt.vformat.
    now rewrite (vformat_from_text s args "" H).
  - unfold fmt.print, fmt.vformat.
    now rewrite (proj1 (vformat_from_open_end s args "" H)).
  - unfold fmt.print, fmt.vformat.
    now rewrite (proj2 (vformat_from_open_end s args "" H)).
Qed.

Lemma print_plain_text_witness :
  brace_free ("Hello from fmt library!" ++ nl) = true /\
  fmt.print ("Hello from fmt library!" ++ nl) [] empty_world =
  Returns tt
    (mkWorld (stdout empty_world ++ "Hello from fmt library!" ++ nl)
       (stderr empty_world)) /\
  fmt.print (("Hello from fmt library!" ++ nl) ++ "{") [] empty_world =
  Throws "format_error" empty_world /\
  fmt.print (("Hello from fmt library!" ++ nl) ++ "}") [] empty_world =
  Throws "format_error" empty_world.
Proof.
  assert (H : brace_free ("Hello from fmt library!" ++ nl) = true)
    by reflexivity.
  split; [exact H|].
  exact (print_plain_text ("Hello from fmt library!" ++ nl) [] empty_world H).
Defined.

(** ** fetchcontent: building the object *)

Lemma object_get_below (k : string) (v : json.value)
    (m : list (string * json.value)) :
  Forall (json.key_lt (k, v)) m -> json.object_get k m = None.
Proof.
  induction 1 as [|[k0 x] rest Hlt Hrest IH]; simpl.
  - reflexivity.
  - unfold json.key_lt in Hlt. simpl in Hlt.
    now rewrite string_compare_eqb, Hlt.
Qed.

Lemma object_get_in_keys (k : string) (x : json.value)
    (m : list (string * json.value)) :
  json.object_get k m = Some x -> In k (json.keys m).
Proof.
  unfold json.keys.
  induction m as [|[k0 x0] rest IH]; simpl; [discriminate|].
  destruct (String.eqb_spec k k0) as [->|Hne]; auto.
Qed.

(** An object is determined by what its keys look up. *)
Lemma ordered_ext (m1 m2 : list (string * json.value)) :
  json.ordered m1 -> json.ordered m2 ->
  (forall k : string, json.object_get k m1 = json.object_get k m2) ->
  m1 = m2.
Proof.
  unfold json.ordered. intros H1. revert m2.
  induction H1 as [|[k1 x1] r1 Hr1 IH Hall1]; intros m2 H2 Hget.
  - destruct m2 as [|[k2 x2] r2]; [reflexivity|].
    specialize (Hget k2). simpl in Hget.
    now rewrite String.eqb_refl in Hget.
  - destruct H2 as [|[k2 x2] r2 Hr2 Hall2].
    + specialize (Hget k1). simpl in Hget.
      now rewrite String.eqb_refl in Hget.
    + destruct (String.compare k1 k2) eqn:E.
      * apply String.compare_eq_iff in E. subst k2.
        pose proof (Hget k1) as Hk. simpl in Hk.
        rewrite String.eqb_refl in Hk. injection Hk as ->.
        f_equal. apply IH; [exact Hr2|].
        intros k. destruct (String.eqb_spec k k1) as [->|Hne].
        -- rewrite (object_get_below k1 x2 r1 Hall1).
           now rewrite (object_get_below k1 x2 r2 Hall2).
        -- specialize (Hget k). simpl in Hget.
           apply String.eqb_neq in Hne. now rewrite Hne in Hget.
      * exfalso. specialize (Hget k1). simpl in Hget.
        rewrite String.eqb_refl, string_compare_eqb, E in Hget.
        rewrite (object_get_below k1 x1 r2) in Hget; [discriminate|].
        eapply Forall_impl; [|exact Hall2].
        intros [k3 x3]. unfold json.key_lt. simpl.
        now apply string_compare_lt_trans.
      * exfalso. specialize (Hget k2). simpl in Hget.
        rewrite String.eqb_refl, string_compare_eqb in Hget.
        rewrite String.compare_antisym, E in Hget. simpl in Hget.
        rewrite (object_get_below k2 x2 r1) in Hget; [discriminate|].
        eapply Forall_impl; [|exact Hall1].
        intros [k3 x3]. unfold json.key_lt. simpl.
        apply string_compare_lt_trans.
        rewrite String.compare_antisym, E. reflexivity.
Qed.

Lemma object_set_comm (k1 k2 : string) (v1 v2 : json.value)
    (m : list (string * json.value)) :
  k1 <> k2 -> json.ordered m ->
  json.object_set k2 v2 (json.object_set k1 v1 m) =
  json.object_set k1 v1 (json.object_set k2 v2 m).
Proof.
  intros Hne Hm.
  apply ordered_ext; try (now repeat apply object_set_ordered).
  intros k.
  destruct (String.eqb_spec k k2) as [->|H2].
  - rewrite object_get_set_same.
    rewrite object_get_set_other by congruence.
    now rewrite object_get_set_same.
  - rewrite (object_get_set_other k2 k) by exact H2.
    destruct (String.eqb_spec k k1) as [->|H1].
    + now rewrite !object_get_set_same.
    + now rewrite !object_get_set_other by assumption.
Qed.

Lemma object_set_overwrite (key : string) (v1 v2 : json.value)
    (m : list (string * json.value)) :
  json.object_set key v2 (json.object_set key v1 m) =
  json.object_set key v2 m.
Proof.
  induction m as [|[k0 x] rest IH]; simpl.
  - now rewrite string_compare_refl.
  - destruct (String.compare key k0) eqn:E; simpl.
    + now rewrite string_compare_refl.
    + now rewrite string_compare_refl.
    + now rewrite E, IH.
Qed.

(** X9.  An assignment [j[key] = v] to an object returns an object that
    still has its keys in strictly increasing order; looking up [key] in it
    finds [v], every other key looks up what it did before, and the keys
    are the old ones and [key].  On a null value the assignment acts as on
    the empty object. *)
Theorem set_then_get (key : string) (v : json.value)
    (m : list (string * json.value)) (w : world) :
  json.ordered m ->
  json.set key v json.Null w = json.set key v (json.Object []) w /\
  exists m' : list (string * json.value),
    json.set key v (json.Object m) w = Returns (json.Object m') w /\
    json.ordered m' /\
    json.object_get key m' = Some v /\
    (forall k : string,
       k <> key -> json.object_get k m' = json.object_get k m) /\
    (forall k : string,
       In k (json.keys m') <-> k = key \/ In k (json.keys m)).
Proof.
  intros Hm. split; [reflexivity|].
  exists (json.object_set key v m). split; [reflexivity|].
  split; [now apply object_set_ordered|].
  split; [apply object_get_set_same|].
  split.
  - intros k Hk. now apply object_get_set_other.
  - intros k. apply object_set_keys.
Qed.

Lemma set_then_get_witness :
  json.ordered [("name", json.Str "FetchContent Example")] /\
  json.set "version" (json.Str "1.0.0") json.Null empty_world =
  json.set "version" (json.Str "1.0.0") (json.Object []) empty_world /\
  exists m' : list (string * json.value),
    json.set "version" (json.Str "1.0.0")
      (json.Object [("name", json.Str "FetchContent Example")]) empty_world =
    Returns (json.Object m') empty_world /\
    json.ordered m' /\
    json.object_get "version" m' = Some (json.Str "1.0.0") /\
    (forall k : string,
       k <> "version" ->
       json.object_get k m' =
       json.object_get k [("name", json.Str "FetchContent Example")]) /\
    (forall k : string,
       In k (json.keys m') <->
       k = "version" \/
       In k (json.keys [("name", json.Str "FetchContent Example")])).
Proof.
  assert (Hm : json.ordered [("name", json.Str "FetchContent Example")])
    by (repeat constructor).
  split; [exact Hm|].
  exact (set_then_get "version" (json.Str "1.0.0")
           [("name", json.Str "FetchContent Example")] empty_world Hm).
Defined.

(** X10.  The order of the assignments does not matter: two assignments to
    different keys of an object give the same object in either order, and
    of two assignments to the same key the later one alone counts. *)
Theorem set_order_irrelevant (k1 k2 : string) (v1 v2 : json.value)
    (m : list (string * json.value)) (w : world) :
  k1 <> k2 -> json.ordered m ->
  (j <- json.set k1 v1 (json.Object m) ;; json.set k2 v2 j) w =
  (j <- json.set k2 v2 (json.Object m) ;; json.set k1 v1 j) w /\
  (j <- json.set k1 v1 (json.Object m) ;; json.set k1 v2 j) w =
  json.set k1 v2 (json.Object m) w.
Proof.
  intros Hne Hm. unfold bind, json.set, ret. split.
  - now rewrite object_set_comm.
  - now rewrite object_set_overwrite.
Qed.

Lemma set_order_irrelevant_witness :
  "name" <> "dependencies" /\
  json.ordered [("version", json.Str "1.0.0")] /\
  (j <- json.set "name" (json.Str "a")
          (json.Object [("version", json.Str "1.0.0")]) ;;
   json.set "dependencies" (json.Array []) j) empty_world =
  (j <- json.set "dependencies" (json.Array [])
          (json.Object [("version", json.Str "1.0.0")]) ;;
   json.set "name" (json.Str "a") j) empty_world /\
  (j <- json.set "name" (json.Str "a")
          (json.Object [("version", json.Str "1.0.0")]) ;;
   json.set "name" (json.Array []) j) empty_world =
  json.set "name" (json.Array [])
    (json.Object [("version", json.Str "1.0.0")]) empty_world.
Proof.
  assert (Hne : "name" <> "dependencies") by discriminate.
  assert (Hm : json.ordered [("version", json.Str "1.0.0")])
    by (repeat constructor).
  refine (conj Hne (conj Hm _)).
  exact (set_order_irrelevant "name" "dependencies" (json.Str "a")
           (json.Array []) [("version", json.Str "1.0.0")] empty_world
           Hne Hm).
Defined.

(** ** fetchcontent: the braced list *)

Lemma object_emplace_ordered (k : string) (v : json.value)
    (m : list (string * json.value)) :
  json.ordered m -> json.ordered (json.object_emplace k v m).
Proof.
  intros Hm. unfold json.object_emplace.
  destruct (json.object_get k m); [exact Hm|now apply object_set_ordered].
Qed.

Lemma of_list_fold_ordered (init : list json.value)
    (m : list (string * json.value)) :
  json.ordered m ->
  json.ordered
    (fold_left
       (fun members j =>
          match json.as_pair j with
          | Some (k, v) => json.object_emplace k v members
          | None => members
          end) init m).
Proof.
  revert m. induction init as [|j init IH]; intros m Hm; simpl.
  - exact Hm.
  - apply IH. destruct (json.as_pair j) as [[k v]|]; [|exact Hm].
    now apply object_emplace_ordered.
Qed.

Lemma object_emplace_get (k k' : string) (v : json.value)
    (m : list (string * json.value)) :
  json.object_get k (json.object_emplace k' v m) =
  match json.object_get k m with
  | Some x => Some x
  | None => if String.eqb k k' then Some v else None
  end.
Proof.
  unfold json.object_emplace.
  destruct (json.object_get k' m) as [y|] eqn:E.
  - destruct (json.object_get k m) as [x|] eqn:Ek; [reflexivity|].
    destruct (String.eqb_spec k k') as [->|Hne]; [congruence|reflexivity].
  - destruct (String.eqb_spec k k') as [->|Hne].
    + now rewrite object_get_set_same, E.
    + rewrite object_get_set_other by exact Hne.
      now destruct (json.object_get k m).
Qed.

(** Folding the pairs into an object: a key that is there stays; a new
    key gets the value of the first pair that carries it. *)
Lemma of_list_fold_get (init : list json.value)
    (m : list (string * json.value)) (k : string) :
  json.object_get k
    (fold_left
       (fun members j =>
          match json.as_pair j with
          | Some (k', v) => json.object_emplace k' v members
          | None => members
          end) init m) =
  match json.object_get k m with
  | Some x => Some x
  | None => first_pair k init
  end.
Proof.
  revert m. induction init as [|j init IH]; intros m; simpl.
  - now destruct (json.object_get k m).
  - rewrite IH. destruct (json.as_pair j) as [[k' v]|]; [|reflexivity].
    rewrite object_emplace_get.
    destruct (json.object_get k m); [reflexivity|].
    now destruct (String.eqb k k').
Qed.

(** X11.  What a braced list stands for.  A non-empty list of strings,
    like the one of the example, is the array of those strings in their
    order.  A non-empty list whose elements are all two-element arrays
    starting with a string is an object instead: its keys are in
    increasing order and each key looks up the value of the first pair
    that carries it.  So one more pair of braces around two strings turns
    the array into an object with one member. *)
Theorem of_list_deduction :
  (forall (s : string) (ss : list string),
     json.of_list (map json.Str (s :: ss)) =
     json.Array (map json.Str (s :: ss))) /\
  (forall init : list json.value,
     init <> [] -> forallb json.is_pair init = true ->
     exists m : list (string * json.value),
       json.of_list init = json.Object m /\
       json.ordered m /\
       forall k : string, json.object_get k m = first_pair k init) /\
  (forall a b : string,
     json.of_list [json.of_list [json.Str a; json.Str b]] =
     json.Object [(a, json.Str b)]).
Proof.
  split; [|split].
  - intros s ss. reflexivity.
  - intros init _ Hall. unfold json.of_list. rewrite Hall.
    eexists. split; [reflexivity|]. split.
    + apply of_list_fold_ordered. constructor.
    + intros k. now rewrite of_list_fold_get.
  - intros a b. reflexivity.
Qed.

Lemma of_list_deduction_witness :
  [json.Array [json.Str "b"; json.Null];
   json.Array [json.Str "a"; json.Str "x"];
   json.Array [json.Str "b"; json.Str "y"]] <> [] /\
  forallb json.is_pair
    [json.Array [json.Str "b"; json.Null];
     json.Array [json.Str "a"; json.Str "x"];
     json.Array [json.Str "b"; json.Str "y"]] = true /\
  exists m : list (string * json.value),
    json.of_list
      [json.Array [json.Str "b"; json.Null];
       json.Array [json.Str "a"; json.Str "x"];
       json.Array [json.Str "b"; json.Str "y"]] = json.Object m /\
    json.ordered m /\
    forall k : string,
      json.object_get k m =
      first_pair k
        [json.Array [json.Str "b"; json.Null];
         json.Array [json.Str "a"; json.Str "x"];
         json.Array [json.Str "b"; json.Str "y"]].
Proof.
  assert (Hne : [json.Array [json.Str "b"; json.Null];
                 json.Array [json.Str "a"; json.Str "x"];
                 json.Array [json.Str "b"; json.Str "y"]] <> [])
    by discriminate.
  assert (Hall : forallb json.is_pair
                   [json.Array [json.Str "b"; json.Null];
                    json.Array [json.Str "a"; json.Str "x"];
                    json.Array [json.Str "b"; json.Str "y"]] = true)
    by reflexivity.
  refine (conj Hne (conj Hall _)).
  exact (proj1 (proj2 of_list_deduction) _ Hne Hall).
Defined.
